(** * Search history of the App component (src/App.tsx)

    The component keeps three pieces of React state ([searchQuery],
    [searchHistory], [isSearching]) and talks to four platform services:
    the URL launcher ([Linking.openURL]), the key-value store
    ([AsyncStorage]), the toast sink ([Toast.show]) and the clock
    ([Date.now]).  The handlers are embedded in a small state-and-exception
    monad over a [World] that holds the React state, the store and a
    chronological trace of what the user and the platform observed.

    Strings are byte strings (the UTF-8 bytes of the JavaScript text), so
    the empty JavaScript string is exactly [""]. *)

From Stdlib Require Import ZArith String Ascii List Lia.
From stdpp Require Import base tactics option list strings pretty gmap sorting.

Local Open Scope string_scope.
Local Open Scope Z_scope.
Local Open Scope list_scope.

(** ** Data model *)

(** [interface SearchHistoryItem] *)
Record SearchHistoryItem : Type := {
  id : string;
  query : string;
  timestamp : Z
}.

#[global] Instance SearchHistoryItem_eq_dec : EqDecision SearchHistoryItem.
Proof. solve_decision. Defined.

(** The values of the three [useState] cells as one render sees them.  The
    handlers of a render read the React state through these closure
    variables only; the setters never change them. *)
Record Render : Type := {
  searchQuery : string;
  searchHistory : list SearchHistoryItem;
  isSearching : bool
}.

(** [useState('')], [useState([])], [useState(false)] *)
Definition initialRender : Render :=
  {| searchQuery := ""; searchHistory := []; isSearching := false |}.

Inductive ToastType : Type := error | success | info.

(** What leaves the component, in the order it happens. *)
Inductive Event : Type :=
  | Shown (type : ToastType) (text1 : string)  (* Toast.show *)
  | Dismissed                                  (* Keyboard.dismiss *)
  | Opened (url : string)                      (* Linking.openURL called *)
  | Logged (msg : string).                     (* console.error *)

#[global] Instance ToastType_eq_dec : EqDecision ToastType.
Proof. solve_decision. Defined.
#[global] Instance Event_eq_dec : EqDecision Event.
Proof. solve_decision. Defined.

(** The platform the component runs on.  The builtins are parameters; the
    three asynchronous services answer by the index of the call, so that any
    sequence of clock readings, launch outcomes and write outcomes can be
    supplied. *)
Record Platform : Type := {
  (** [encodeURIComponent]; [None] is the [URIError] it throws on a lone
      surrogate. *)
  encodeURIComponent : string → option string;
  JSON_stringify : list SearchHistoryItem → string;
  (** the k-th reading of [Date.now()], in milliseconds *)
  clock : nat → Z;
  (** whether the promise of the k-th [Linking.openURL] resolves *)
  openURL_resolves : nat → bool;
  (** whether the promise of the k-th [AsyncStorage.setItem] resolves *)
  setItem_resolves : nat → bool
}.

Record World : Type := {
  state : Render;              (* the React state the next render will see *)
  storage : gmap string string; (* AsyncStorage *)
  trace : list Event;          (* oldest first *)
  readings : nat;              (* calls of Date.now so far *)
  launches : nat;              (* calls of Linking.openURL so far *)
  writes : nat                 (* calls of AsyncStorage.setItem so far *)
}.

Definition initialWorld : World :=
  {| state := initialRender; storage := ∅; trace := [];
     readings := 0; launches := 0; writes := 0 |}.

(** ** The monad of handlers *)

Inductive Error : Type := URIError | Rejected.

Inductive Outcome (A : Type) : Type :=
  | Returned (a : A)
  | Thrown (e : Error).
Arguments Returned {A} a.
Arguments Thrown {A} e.

Definition M (A : Type) : Type := World → World * Outcome A.

Definition ret {A} (a : A) : M A := λ w, (w, Returned a).

Definition throw {A} (e : Error) : M A := λ w, (w, Thrown e).

Definition bind {A B} (m : M A) (k : A → M B) : M B := λ w,
  match m w with
  | (w', Returned a) => k a w'
  | (w', Thrown e) => (w', Thrown e)
  end.

Declare Scope handler_scope.
Delimit Scope handler_scope with handler.
Notation "x <- m ;; k" := (bind m (λ x, k))
  (at level 100, m at next level, right associativity) : handler_scope.
Notation "m ;; k" := (bind m (λ _, k))
  (at level 100, right associativity) : handler_scope.
Local Open Scope handler_scope.

(** [try { body } catch (error) { handler error }] *)
Definition try_catch {A} (body : M A) (handler : Error → M A) : M A := λ w,
  match body w with
  | (w', Returned a) => (w', Returned a)
  | (w', Thrown e) => handler e w'
  end.

(** [try { body } catch (error) { handler error } finally { final }]: the
    [finally] block runs whatever happened, and what it throws replaces the
    outcome of the first two blocks. *)
Definition try_catch_finally {A} (body : M A) (handler : Error → M A)
    (final : M unit) : M A := λ w,
  let '(w1, r) := try_catch body handler w in
  match final w1 with
  | (w2, Returned _) => (w2, r)
  | (w2, Thrown e) => (w2, Thrown e)
  end.

(** A call of an async function whose promise is not awaited: the caller
    goes on with [rest], and the settlement of [p] (the store updated, or the
    rejection handled inside [p]) lands after it.  An outcome of [p] is
    dropped, as that of a floating promise is. *)
Definition detached {A} (p : M unit) (rest : M A) : M A := λ w,
  let '(w1, r) := rest w in
  (fst (p w1), r).

(** ** State setters and platform calls *)

Definition with_state (f : Render → Render) : M unit := λ w,
  ({| state := f (state w); storage := storage w; trace := trace w;
      readings := readings w; launches := launches w; writes := writes w |},
   Returned tt).

Definition setSearchQuery (s : string) : M unit :=
  with_state (λ r, {| searchQuery := s; searchHistory := searchHistory r;
                      isSearching := isSearching r |}).

Definition setSearchHistory (h : list SearchHistoryItem) : M unit :=
  with_state (λ r, {| searchQuery := searchQuery r; searchHistory := h;
                      isSearching := isSearching r |}).

Definition setIsSearching (b : bool) : M unit :=
  with_state (λ r, {| searchQuery := searchQuery r;
                      searchHistory := searchHistory r; isSearching := b |}).

Definition emit (e : Event) : M unit := λ w,
  ({| state := state w; storage := storage w; trace := trace w ++ [e];
      readings := readings w; launches := launches w; writes := writes w |},
   Returned tt).

Definition Toast_show (type : ToastType) (text1 : string) : M unit :=
  emit (Shown type text1).

Definition Keyboard_dismiss : M unit := emit Dismissed.

Definition console_error (msg : string) : M unit := emit (Logged msg).

(** [Number.prototype.toString] on a clock reading: an integer far below
    1e21, so the plain decimal digits, with a minus sign below zero. *)
Definition toString (n : Z) : string := pretty n.

(** [!text] on a string: only the empty string is falsy. *)
Definition falsy (text : string) : bool := bool_decide (text = "").

Section Handlers.
Variable env : Platform.

Definition Date_now : M Z := λ w,
  ({| state := state w; storage := storage w; trace := trace w;
      readings := S (readings w); launches := launches w;
      writes := writes w |},
   Returned (clock env (readings w))).

Definition Linking_openURL (url : string) : M unit := λ w,
  ({| state := state w; storage := storage w;
      trace := trace w ++ [Opened url];
      readings := readings w; launches := S (launches w);
      writes := writes w |},
   if openURL_resolves env (launches w) then Returned tt
   else Thrown Rejected).

Definition AsyncStorage_setItem (key value : string) : M unit := λ w,
  if setItem_resolves env (writes w) then
    ({| state := state w; storage := <[key := value]> (storage w);
        trace := trace w; readings := readings w; launches := launches w;
        writes := S (writes w) |}, Returned tt)
  else
    ({| state := state w; storage := storage w; trace := trace w;
        readings := readings w; launches := launches w;
        writes := S (writes w) |}, Thrown Rejected).

(** The template literal of the search URL, with its call of
    [encodeURIComponent]. *)
Definition searchUrl_of (text : string) : M string :=
  match encodeURIComponent env text with
  | Some q => ret ("https://www.google.com/search?q=" +:+ q)
  | None => throw URIError
  end.

(** ** The handlers

    Each handler takes, last, the closure of the render it was created in. *)

Definition saveSearchHistory (newHistory : list SearchHistoryItem) : M unit :=
  try_catch
    (AsyncStorage_setItem "searchHistory" (JSON_stringify env newHistory))
    (λ _, console_error "Error saving search history:").

Definition performSearch (text : string) (render : Render) : M unit :=
  if falsy text then
    Toast_show error "Please enter a search query"
  else
    setIsSearching true ;;
    Keyboard_dismiss ;;
    try_catch_finally
      (searchUrl <- searchUrl_of text ;;
       Linking_openURL searchUrl ;;
       (* Add to history *)
       id_now <- Date_now ;;
       timestamp_now <- Date_now ;;
       let newHistoryItem :=
         {| id := toString id_now; query := text;
            timestamp := timestamp_now |} in
       let newHistory := newHistoryItem :: searchHistory render in
       setSearchHistory newHistory ;;
       saveSearchHistory newHistory ;;
       setSearchQuery "" ;;
       Toast_show success "Searching...")
      (λ _, Toast_show error "Failed to open search")
      (setIsSearching false).

Definition handleSearch (render : Render) : M unit :=
  performSearch (searchQuery render) render.

Definition handleSearchAgain (query : string) (render : Render) : M unit :=
  performSearch query render.

Definition handleDeleteHistory (i : string) (render : Render) : M unit :=
  let newHistory := filter (λ item, id item ≠ i) (searchHistory render) in
  setSearchHistory newHistory ;;
  detached (saveSearchHistory newHistory)
    (Toast_show info "Search history item deleted").

Definition handleDeleteAll (render : Render) : M unit :=
  setSearchHistory [] ;;
  detached (saveSearchHistory [])
    (Toast_show info "All search history cleared").

(** A handler runs with the closure of the current render: the React state
    as it stands when the user acts.  One handler has settled before the next
    one starts. *)
Definition dispatch {A} (handler : Render → M A) (w : World)
    : World * Outcome A :=
  handler (state w) w.

(** What the user can do on the screen. *)
Inductive Intent : Type :=
  | ChangeText (text : string)    (* onChangeText={setSearchQuery} *)
  | Submit                        (* onPress / onSubmitEditing *)
  | SearchAgain (query : string)  (* the "Search Again" button of an entry *)
  | Delete (i : string)           (* the "Delete" button of an entry *)
  | DeleteAll.                    (* the "Delete All" button *)

Definition handler_of (intent : Intent) : Render → M unit :=
  match intent with
  | ChangeText text => λ _, setSearchQuery text
  | Submit => handleSearch
  | SearchAgain query => handleSearchAgain query
  | Delete i => handleDeleteHistory i
  | DeleteAll => handleDeleteAll
  end.

Definition step (w : World) (intent : Intent) : World :=
  (dispatch (handler_of intent) w).1.

Definition run (w : World) (intents : list Intent) : World :=
  foldl step w intents.

End Handlers.

(** The ids of a history, in order. *)
Definition ids (h : list SearchHistoryItem) : list string := id <$> h.

(** ** A platform to run the handlers on

    [encodeURIComponent] and [JSON.stringify] on byte strings, and a platform
    built from them and three answer functions. *)

Definition hex_digit (digits : string) (n : N) : ascii :=
  default "0"%char (String.get (N.to_nat n) digits).

Definition unreserved (c : ascii) : bool :=
  let n := N_of_ascii c in
  ((48 <=? n) && (n <=? 57) || (65 <=? n) && (n <=? 90)
   || (97 <=? n) && (n <=? 122)
   || bool_decide (c ∈ list_ascii_of_string "-_.!~*'()"))%N.

Fixpoint percent_encode (s : string) : string :=
  match s with
  | EmptyString => ""
  | String c s' =>
      let n := N_of_ascii c in
      (if unreserved c then String c ""
       else String "%" (String (hex_digit "0123456789ABCDEF" (n / 16))
              (String (hex_digit "0123456789ABCDEF" (n mod 16)) "")))
      +:+ percent_encode s'
  end.

Definition quote : string := String "034" "".

Fixpoint json_escape (s : string) : string :=
  match s with
  | EmptyString => ""
  | String c s' =>
      let n := N_of_ascii c in
      (if (n =? 34)%N then "\" +:+ quote
       else if (n =? 92)%N then "\\"
       else if (n =? 8)%N then "\b"
       else if (n =? 9)%N then "\t"
       else if (n =? 10)%N then "\n"
       else if (n =? 12)%N then "\f"
       else if (n =? 13)%N then "\r"
       else if (n <? 32)%N then
         "\u00" +:+ String (hex_digit "0123456789abcdef" (n / 16))
                     (String (hex_digit "0123456789abcdef" (n mod 16)) "")
       else String c "")
      +:+ json_escape s'
  end.

Definition json_string (s : string) : string :=
  quote +:+ json_escape s +:+ quote.

Definition json_item (item : SearchHistoryItem) : string :=
  "{" +:+ json_string "id" +:+ ":" +:+ json_string (id item)
  +:+ "," +:+ json_string "query" +:+ ":" +:+ json_string (query item)
  +:+ "," +:+ json_string "timestamp" +:+ ":" +:+ toString (timestamp item)
  +:+ "}".

Definition json_array (h : list SearchHistoryItem) : string :=
  "[" +:+ String.concat "," (json_item <$> h) +:+ "]".

Definition platform (now : nat → Z) (launch write : nat → bool) : Platform :=
  {| encodeURIComponent := λ s, Some (percent_encode s);
     JSON_stringify := json_array;
     clock := now;
     openURL_resolves := launch;
     setItem_resolves := write |}.

(** A clock that has advanced by one millisecond at each reading, and one
    that stands still. *)
Definition ticking : nat → Z := λ k, 1000 + Z.of_nat k.
Definition frozen : nat → Z := λ _, 1000.

Definition always (b : bool) : nat → bool := λ _, b.

(** The entry that a successful [performSearch] builds in world [w]: the id
    from one clock reading, the timestamp from the next one. *)
Definition newHistoryItem_in (env : Platform) (w : World) (text : string)
    : SearchHistoryItem :=
  {| id := toString (clock env (readings w)); query := text;
     timestamp := clock env (S (readings w)) |}.

(** Whether [performSearch text] gets past the launch in world [w]: the text
    is not empty, it encodes, and the launcher's promise resolves. *)
Definition search_succeeds (env : Platform) (w : World) (text : string)
    : bool :=
  negb (falsy text) &&
  match encodeURIComponent env text with
  | Some _ => openURL_resolves env (launches w)
  | None => false
  end.

(** [handler], run in [w], absorbs a failed write: it returns normally, the
    history in memory is [post], the store is untouched, and of what it
    emits, [console.error] has the failure and no toast is an error toast. *)
Definition absorbs_write_failure (w : World) (handler : Render → M unit)
    (post : list SearchHistoryItem) : Prop :=
  ∃ w' emitted,
    dispatch handler w = (w', Returned tt) ∧
    searchHistory (state w') = post ∧
    storage w' = storage w ∧
    trace w' = trace w ++ emitted ∧
    Logged "Error saving search history:" ∈ emitted ∧
    ∀ text1, Shown error text1 ∉ emitted.

(** The clock readings that become ids.  Counted from the initial world,
    each successful [performSearch] reads the clock twice, so the ids come
    from the readings of even index.  Among the first [n] readings, no two
    of those return the same instant. *)
Definition id_readings_distinct (env : Platform) (n : nat) : Prop :=
  ∀ j k, (2 * j < n)%nat → (2 * k < n)%nat →
         clock env (2 * j) = clock env (2 * k) → j = k.

(** The clock has been read an even number of times, every id of the
    history is the rendering of an id reading already taken, and no id
    occurs twice. *)
Definition ids_from_clock (env : Platform) (w : World) : Prop :=
  (∃ m, readings w = (2 * m)%nat) ∧
  NoDup (ids (searchHistory (state w))) ∧
  ∀ i, i ∈ ids (searchHistory (state w)) →
       ∃ j, (2 * j < readings w)%nat ∧ i = toString (clock env (2 * j)).

(** [h'] is [h] without the entries of id [i]: it keeps the order of [h],
    has no entry of id [i], and has every other entry as many times as [h]
    has it. *)
Definition without_id (i : string) (h h' : list SearchHistoryItem) : Prop :=
  sublist h' h ∧
  (i ∉ ids h') ∧
  ∀ item, id item ≠ i →
          count_occ SearchHistoryItem_eq_dec h' item
          = count_occ SearchHistoryItem_eq_dec h item.

(** Platforms and worlds to run the handlers on. *)
Definition fair_weather : Platform :=
  platform ticking (always true) (always true).
Definition no_browser : Platform :=
  platform ticking (always false) (always true).
Definition disk_full : Platform :=
  platform ticking (always true) (always false).
Definition same_instant : Platform :=
  platform frozen (always true) (always true).

(** Two searches done while the clock stands still. *)
Definition twice_at_once : World :=
  run same_instant initialWorld [SearchAgain "cats"; SearchAgain "dogs"].

(** Two searches, a millisecond between any two clock readings. *)
Definition cats_and_dogs : World :=
  run fair_weather initialWorld [SearchAgain "cats"; SearchAgain "dogs"].

(** ** Startup

    [useEffect(() => { loadSearchHistory(); }, [])]: the history is read from
    the store once, when the component is mounted. *)

(** What the startup needs from the platform besides [Platform]. *)
Record Startup : Type := {
  (** [JSON.parse] on the stored text: the history it returns (values that
      are no array of items are outside the type that [setSearchHistory]
      takes), or what it throws. *)
  JSON_parse : string → Outcome (list SearchHistoryItem);
  (** whether the promise of [AsyncStorage.getItem] resolves *)
  getItem_resolves : bool
}.

Definition settled {A} (o : Outcome A) : M A := λ w, (w, o).

(** [AsyncStorage.getItem]: the stored string, or [null] ([None]) when the
    key is absent. *)
Definition AsyncStorage_getItem (st : Startup) (key : string)
    : M (option string) := λ w,
  if getItem_resolves st then (w, Returned (storage w !! key))
  else (w, Thrown Rejected).

Definition loadSearchHistory (st : Startup) : M unit :=
  try_catch
    (history <- AsyncStorage_getItem st "searchHistory" ;;
     match history with
     | Some text =>
         (* [if (history)]: the empty string is falsy as [null] is *)
         if falsy text then ret tt
         else
           parsed <- settled (JSON_parse st text) ;;
           setSearchHistory parsed
     | None => ret tt
     end)
    (λ _, console_error "Error loading search history:").

(** The process is ended and the component mounted again: the React state
    starts from its [useState] defaults, the store is what it was, and
    [loadSearchHistory] runs. *)
Definition restart (st : Startup) (w : World) : World :=
  (loadSearchHistory st
     {| state := initialRender; storage := storage w; trace := trace w;
        readings := readings w; launches := launches w;
        writes := writes w |}).1.

(** ** Predicates on worlds and histories *)

(** The store holds nothing while the history is still empty, or exactly
    the serialisation of the history in memory under 'searchHistory'. *)
Definition in_sync (env : Platform) (w : World) : Prop :=
  (storage w = ∅ ∧ searchHistory (state w) = []) ∨
  storage w = {[ "searchHistory" := JSON_stringify env (searchHistory (state w)) ]}.

(** Newest first: no entry has a later timestamp than one before it. *)
Definition newest_first (h : list SearchHistoryItem) : Prop :=
  StronglySorted (λ a b, timestamp b ≤ timestamp a) h.

(** Every timestamp of the history is a clock reading already taken. *)
Definition timestamps_read (env : Platform) (w : World) : Prop :=
  Forall (λ item, ∃ k, (k < readings w)%nat ∧ timestamp item = clock env k)
    (searchHistory (state w)).

(** ** A reader for the startup, and an encoder that can throw *)

Fixpoint expect (prefix s : string) : option string :=
  match prefix, s with
  | EmptyString, _ => Some s
  | String a prefix', String b s' =>
      if decide (a = b) then expect prefix' s' else None
  | String _ _, EmptyString => None
  end.

Definition hex_value (c : ascii) : option N :=
  (λ found, N.of_nat found.1) <$>
    list_find (λ d, d = c) (list_ascii_of_string "0123456789abcdef").

(** The text of a JSON string up to its closing quote, escapes undone, and
    what follows the quote. *)
Fixpoint read_string (s : string) : option (string * string) :=
  match s with
  | EmptyString => None
  | String c rest =>
      if (N_of_ascii c =? 34)%N then Some ("", rest)
      else if (N_of_ascii c =? 92)%N then
        match rest with
        | String e rest' =>
            let more (b : ascii) (r : option (string * string)) :=
              r ≫= (λ '(text, after), Some (String b text, after)) in
            if (N_of_ascii e =? 34)%N then more e (read_string rest')
            else if (N_of_ascii e =? 92)%N then more e (read_string rest')
            else if decide (e = "b"%char) then more "008"%char (read_string rest')
            else if decide (e = "t"%char) then more "009"%char (read_string rest')
            else if decide (e = "n"%char) then more "010"%char (read_string rest')
            else if decide (e = "f"%char) then more "012"%char (read_string rest')
            else if decide (e = "r"%char) then more "013"%char (read_string rest')
            else if decide (e = "u"%char) then
              match rest' with
              | String "0" (String "0" (String hi (String lo rest''))) =>
                  match hex_value hi, hex_value lo with
                  | Some h, Some l =>
                      more (ascii_of_N (16 * h + l)) (read_string rest'')
                  | _, _ => None
                  end
              | _ => None
              end
            else None
        | EmptyString => None
        end
      else
        read_string rest ≫= (λ '(text, after), Some (String c text, after))
  end.

Definition is_digit (c : ascii) : bool :=
  ((48 <=? N_of_ascii c) && (N_of_ascii c <=? 57))%N.

Fixpoint read_digits (acc : N) (s : string) : N * string :=
  match s with
  | String c rest =>
      if is_digit c then read_digits (10 * acc + (N_of_ascii c - 48))%N rest
      else (acc, s)
  | EmptyString => (acc, s)
  end.

Definition read_integer (s : string) : option (Z * string) :=
  match s with
  | String "-" (String c _ as digits) =>
      if is_digit c then
        let '(n, after) := read_digits 0 digits in Some (- Z.of_N n, after)
      else None
  | String c _ =>
      if is_digit c then
        let '(n, after) := read_digits 0 s in Some (Z.of_N n, after)
      else None
  | EmptyString => None
  end.

Definition read_item (s : string) : option (SearchHistoryItem * string) :=
  s ← expect ("{" +:+ json_string "id" +:+ ":" +:+ quote) s;
  '(i, s) ← read_string s;
  s ← expect ("," +:+ json_string "query" +:+ ":" +:+ quote) s;
  '(q, s) ← read_string s;
  s ← expect ("," +:+ json_string "timestamp" +:+ ":") s;
  '(t, s) ← read_integer s;
  s ← expect "}" s;
  Some ({| id := i; query := q; timestamp := t |}, s).

Fixpoint read_items (fuel : nat) (s : string)
    : option (list SearchHistoryItem) :=
  match fuel with
  | O => None
  | S fuel' =>
      '(item, s) ← read_item s;
      match s with
      | String "," s' => (item ::.) <$> read_items fuel' s'
      | String "]" EmptyString => Some [item]
      | _ => None
      end
  end.

(** Reads back what [json_array] writes; anything else is an error. *)
Definition read_history (s : string) : Outcome (list SearchHistoryItem) :=
  match s with
  | String "[" (String "]" EmptyString) => Returned []
  | String "[" s' =>
      match read_items (String.length s') s' with
      | Some h => Returned h
      | None => Thrown Rejected
      end
  | _ => Thrown Rejected
  end.

Definition reader : Startup :=
  {| JSON_parse := read_history; getItem_resolves := true |}.

Definition no_store : Startup :=
  {| JSON_parse := read_history; getItem_resolves := false |}.

(** A surrogate code point carried as three bytes of its own (ED A0..BF xx)
    is a lone surrogate of the JavaScript string: a pair is one four-byte
    sequence. *)
Fixpoint has_lone_surrogate (s : string) : bool :=
  match s with
  | String a (String b _ as rest) =>
      ((N_of_ascii a =? 237) && (160 <=? N_of_ascii b)
       && (N_of_ascii b <=? 191))%N
      || has_lone_surrogate rest
  | _ => false
  end.

(** [fair_weather] with an [encodeURIComponent] that throws on a lone
    surrogate. *)
Definition well_formed_only : Platform :=
  {| encodeURIComponent := λ s,
       if has_lone_surrogate s then None else Some (percent_encode s);
     JSON_stringify := json_array;
     clock := ticking;
     openURL_resolves := always true;
     setItem_resolves := always true |}.

(** U+D800 on its own. *)
Definition lone_surrogate : string := String "237" (String "160" (String "128" "")).

(** A world whose store holds text that is no JSON. *)
Definition corrupted : World :=
  {| state := initialRender; storage := {[ "searchHistory" := "[{oops" ]};
     trace := []; readings := 0; launches := 0; writes := 0 |}.

(** [w'] differs from [w] by a change of the history and one write tried:
    the pending text, the busy flag, the clock and the launcher were left
    alone, and no URL was opened. *)
Definition history_only (w w' : World) : Prop :=
  searchQuery (state w') = searchQuery (state w) ∧
  isSearching (state w') = isSearching (state w) ∧
  readings w' = readings w ∧
  launches w' = launches w ∧
  writes w' = S (writes w) ∧
  ∀ url, Opened url ∉ drop (length (trace w)) (trace w').

(** * Properties *)

(** ** Running [performSearch] *)

Ltac run_handler :=
  unfold dispatch, handleDeleteAll, handleDeleteHistory, handleSearchAgain,
    handleSearch, performSearch, saveSearchHistory, try_catch_finally,
    try_catch, detached, searchUrl_of, bind, ret, throw, setSearchQuery,
    setSearchHistory, setIsSearching, with_state, Toast_show,
    Keyboard_dismiss, console_error, emit, Date_now, Linking_openURL,
    AsyncStorage_setItem; simpl.

(** No event of the shape looked for is in an explicit list of events. *)
Ltac no_such_event :=
  let H := fresh in
  intros H;
  repeat (apply elem_of_cons in H as [H|H]; [discriminate H|]);
  by apply elem_of_nil in H.

Lemma falsy_nonempty text : text ≠ "" → falsy text = false.
Proof. intros H. unfold falsy. by rewrite bool_decide_eq_false_2. Qed.

Section PerformSearch.
Context (env : Platform) (w : World) (text : string).

Lemma performSearch_resolved q :
  text ≠ "" →
  encodeURIComponent env text = Some q →
  openURL_resolves env (launches w) = true →
  let newHistory := newHistoryItem_in env w text :: searchHistory (state w) in
  dispatch (performSearch env text) w =
  ({| state := {| searchQuery := ""; searchHistory := newHistory;
                  isSearching := false |};
      storage := if setItem_resolves env (writes w)
                 then <["searchHistory" := JSON_stringify env newHistory]>
                        (storage w)
                 else storage w;
      trace := trace w
               ++ [Dismissed; Opened ("https://www.google.com/search?q=" +:+ q)]
               ++ (if setItem_resolves env (writes w) then []
                   else [Logged "Error saving search history:"])
               ++ [Shown success "Searching..."];
      readings := S (S (readings w)); launches := S (launches w);
      writes := S (writes w) |}, Returned tt).
Proof.
  intros Htext Hq Hopen. run_handler.
  rewrite (falsy_nonempty _ Htext), Hq. simpl. rewrite Hopen.
  destruct (setItem_resolves env (writes w)); simpl;
    by rewrite <- !app_assoc.
Qed.

Lemma performSearch_rejected q :
  text ≠ "" →
  encodeURIComponent env text = Some q →
  openURL_resolves env (launches w) = false →
  dispatch (performSearch env text) w =
  ({| state := {| searchQuery := searchQuery (state w);
                  searchHistory := searchHistory (state w);
                  isSearching := false |};
      storage := storage w;
      trace := trace w
               ++ [Dismissed; Opened ("https://www.google.com/search?q=" +:+ q);
                   Shown error "Failed to open search"];
      readings := readings w; launches := S (launches w);
      writes := writes w |}, Returned tt).
Proof.
  intros Htext Hq Hopen. run_handler.
  rewrite (falsy_nonempty _ Htext), Hq. simpl. rewrite Hopen. simpl.
  by rewrite <- !app_assoc.
Qed.

Lemma performSearch_URIError :
  text ≠ "" →
  encodeURIComponent env text = None →
  dispatch (performSearch env text) w =
  ({| state := {| searchQuery := searchQuery (state w);
                  searchHistory := searchHistory (state w);
                  isSearching := false |};
      storage := storage w;
      trace := trace w ++ [Dismissed; Shown error "Failed to open search"];
      readings := readings w; launches := launches w;
      writes := writes w |}, Returned tt).
Proof.
  intros Htext Hq. run_handler.
  rewrite (falsy_nonempty _ Htext), Hq. simpl.
  by rewrite <- !app_assoc.
Qed.

End PerformSearch.

(** ** Submitting a search *)

(** C2: for a non-empty query whose launch succeeds, [performSearch] makes
    the history one longer, puts at index 0 an entry whose [query] is the
    submitted text, and leaves the previous entries after it as they were. *)
Theorem performSearch_prepends env w text q :
  text ≠ "" →
  encodeURIComponent env text = Some q →
  openURL_resolves env (launches w) = true →
  let h := searchHistory (state w) in
  let h' := searchHistory (state (dispatch (performSearch env text) w).1) in
  length h' = S (length h) ∧
  (∃ item, h' !! 0%nat = Some item ∧ query item = text) ∧
  drop 1 h' = h.
Proof.
  intros Htext Hq Hopen.
  rewrite (performSearch_resolved env w text q Htext Hq Hopen). simpl.
  split; [done|]. split; [|by rewrite drop_0].
  by exists (newHistoryItem_in env w text).
Qed.

Lemma performSearch_prepends_witness :
  length (searchHistory
            (state (dispatch (performSearch fair_weather "dogs")
                      cats_and_dogs).1))
  = S (length (searchHistory (state cats_and_dogs))) ∧
  (∃ item,
     searchHistory
       (state (dispatch (performSearch fair_weather "dogs")
                 cats_and_dogs).1) !! 0%nat = Some item ∧
     query item = "dogs") ∧
  drop 1 (searchHistory
            (state (dispatch (performSearch fair_weather "dogs")
                      cats_and_dogs).1))
  = searchHistory (state cats_and_dogs).
Proof.
  apply (performSearch_prepends fair_weather cats_and_dogs "dogs" "dogs");
    [done|reflexivity|reflexivity].
Defined.

(** C4: [performSearch] on the empty string leaves the React state (the
    history with it) and the store as they are, does not call the launcher,
    and shows an error toast. *)
Theorem performSearch_empty_query env w :
  let w' := (dispatch (performSearch env "") w).1 in
  searchHistory (state w') = searchHistory (state w) ∧
  state w' = state w ∧
  storage w' = storage w ∧
  launches w' = launches w ∧
  trace w' = trace w ++ [Shown error "Please enter a search query"].
Proof. done. Qed.

(** C5: for a non-empty query whose launch is rejected, [performSearch]
    leaves the history and the store as they are, shows the failure toast,
    and ends with [isSearching] false. *)
Theorem performSearch_launch_rejected env w text q :
  text ≠ "" →
  encodeURIComponent env text = Some q →
  openURL_resolves env (launches w) = false →
  let w' := (dispatch (performSearch env text) w).1 in
  searchHistory (state w') = searchHistory (state w) ∧
  storage w' = storage w ∧
  trace w' = trace w
             ++ [Dismissed; Opened ("https://www.google.com/search?q=" +:+ q);
                 Shown error "Failed to open search"] ∧
  isSearching (state w') = false.
Proof.
  intros Htext Hq Hopen.
  by rewrite (performSearch_rejected env w text q Htext Hq Hopen).
Qed.

Lemma performSearch_launch_rejected_witness :
  searchHistory
    (state (dispatch (performSearch no_browser "cats") cats_and_dogs).1)
  = searchHistory (state cats_and_dogs) ∧
  storage (dispatch (performSearch no_browser "cats") cats_and_dogs).1
  = storage cats_and_dogs ∧
  trace (dispatch (performSearch no_browser "cats") cats_and_dogs).1
  = trace cats_and_dogs
    ++ [Dismissed; Opened ("https://www.google.com/search?q=" +:+ "cats");
        Shown error "Failed to open search"] ∧
  isSearching
    (state (dispatch (performSearch no_browser "cats") cats_and_dogs).1)
  = false.
Proof.
  apply (performSearch_launch_rejected no_browser cats_and_dogs "cats" "cats");
    [done|reflexivity|reflexivity].
Defined.

(** The busy flag is reset whatever happened after it was set. *)
Lemma performSearch_resets_isSearching env w text :
  text ≠ "" →
  isSearching (state (dispatch (performSearch env text) w).1) = false.
Proof.
  intros Htext.
  destruct (encodeURIComponent env text) as [q|] eqn:Hq.
  - destruct (openURL_resolves env (launches w)) eqn:Hopen.
    + by rewrite (performSearch_resolved env w text q).
    + by rewrite (performSearch_rejected env w text q).
  - by rewrite (performSearch_URIError env w text).
Qed.

(** What [performSearch] does to the history and to the count of clock
    readings, in every case. *)
Lemma performSearch_history env w text :
  let w' := (dispatch (performSearch env text) w).1 in
  if search_succeeds env w text then
    searchHistory (state w')
      = newHistoryItem_in env w text :: searchHistory (state w) ∧
    readings w' = S (S (readings w))
  else
    searchHistory (state w') = searchHistory (state w) ∧
    readings w' = readings w.
Proof.
  unfold search_succeeds.
  destruct (decide (text = "")) as [->|Htext]; [done|].
  rewrite (falsy_nonempty _ Htext). simpl.
  destruct (encodeURIComponent env text) as [q|] eqn:Hq.
  - destruct (openURL_resolves env (launches w)) eqn:Hopen.
    + by rewrite (performSearch_resolved env w text q).
    + by rewrite (performSearch_rejected env w text q).
  - by rewrite (performSearch_URIError env w text).
Qed.

(** C10: [performSearch] clears the pending query text exactly when it
    succeeds; on the empty query, on a rejected launch and on every other
    failure the text is left as it was. *)
Theorem performSearch_searchQuery env w text :
  searchQuery (state (dispatch (performSearch env text) w).1) =
  if search_succeeds env w text then "" else searchQuery (state w).
Proof.
  unfold search_succeeds.
  destruct (decide (text = "")) as [->|Htext]; [done|].
  rewrite (falsy_nonempty _ Htext). simpl.
  destruct (encodeURIComponent env text) as [q|] eqn:Hq.
  - destruct (openURL_resolves env (launches w)) eqn:Hopen.
    + by rewrite (performSearch_resolved env w text q).
    + by rewrite (performSearch_rejected env w text q).
  - by rewrite (performSearch_URIError env w text).
Qed.

(** ** Deleting *)

Lemma handleDeleteHistory_run env w i :
  let newHistory := filter (λ item, id item ≠ i) (searchHistory (state w)) in
  dispatch (handleDeleteHistory env i) w =
  ({| state := {| searchQuery := searchQuery (state w);
                  searchHistory := newHistory;
                  isSearching := isSearching (state w) |};
      storage := if setItem_resolves env (writes w)
                 then <["searchHistory" := JSON_stringify env newHistory]>
                        (storage w)
                 else storage w;
      trace := trace w
               ++ Shown info "Search history item deleted"
                  :: (if setItem_resolves env (writes w) then []
                      else [Logged "Error saving search history:"]);
      readings := readings w; launches := launches w;
      writes := S (writes w) |}, Returned tt).
Proof.
  run_handler. destruct (setItem_resolves env (writes w)); simpl;
    by rewrite <- ?app_assoc.
Qed.

Lemma handleDeleteAll_run env w :
  dispatch (handleDeleteAll env) w =
  ({| state := {| searchQuery := searchQuery (state w);
                  searchHistory := [];
                  isSearching := isSearching (state w) |};
      storage := if setItem_resolves env (writes w)
                 then <["searchHistory" := JSON_stringify env []]> (storage w)
                 else storage w;
      trace := trace w
               ++ Shown info "All search history cleared"
                  :: (if setItem_resolves env (writes w) then []
                      else [Logged "Error saving search history:"]);
      readings := readings w; launches := launches w;
      writes := S (writes w) |}, Returned tt).
Proof.
  run_handler. destruct (setItem_resolves env (writes w)); simpl;
    by rewrite <- ?app_assoc.
Qed.

(** The filter of [handleDeleteHistory] keeps a list none of whose ids is
    the deleted one. *)
Lemma filter_other_ids (h : list SearchHistoryItem) (i : string) :
  i ∉ ids h → filter (λ item, id item ≠ i) h = h.
Proof.
  induction h as [|item h IH]; [done|].
  unfold ids. rewrite fmap_cons, not_elem_of_cons. intros [Hne Hnotin].
  rewrite filter_cons. destruct (decide (id item ≠ i)) as [_|Heq].
  - f_equal. by apply IH.
  - by destruct Heq.
Qed.

(** With pairwise distinct ids, the filter takes out one entry. *)
Lemma filter_unique_id (h : list SearchHistoryItem) (i : string) :
  NoDup (ids h) → i ∈ ids h →
  ∃ l1 item l2,
    h = l1 ++ item :: l2 ∧ id item = i ∧
    filter (λ item, id item ≠ i) h = l1 ++ l2.
Proof.
  intros Hnodup Hin.
  apply list_elem_of_fmap in Hin as (item & -> & Hitem).
  apply list_elem_of_split in Hitem as (l1 & l2 & ->).
  exists l1, item, l2. split; [done|]. split; [done|].
  unfold ids in Hnodup. rewrite fmap_app, fmap_cons in Hnodup.
  apply NoDup_app in Hnodup as (_ & Hl1 & Hl2).
  apply NoDup_cons in Hl2 as [Hl2 _].
  rewrite filter_app, filter_cons.
  destruct (decide (id item ≠ id item)) as [Hne|_]; [done|].
  rewrite !filter_other_ids; [done|done|].
  intros Hin1. apply (Hl1 _ Hin1). left.
Qed.

(** C3, as the code has it: when the ids of the history are pairwise
    distinct and [i] is one of them, [handleDeleteHistory i] takes out
    exactly one entry, the one with id [i], and keeps the others in their
    order. *)
Theorem handleDeleteHistory_present env w i :
  NoDup (ids (searchHistory (state w))) →
  i ∈ ids (searchHistory (state w)) →
  ∃ l1 item l2,
    searchHistory (state w) = l1 ++ item :: l2 ∧
    id item = i ∧
    searchHistory (state (dispatch (handleDeleteHistory env i) w).1)
    = l1 ++ l2.
Proof.
  intros Hnodup Hin. rewrite handleDeleteHistory_run. simpl.
  by apply filter_unique_id.
Qed.

Lemma handleDeleteHistory_present_witness :
  ∃ l1 item l2,
    searchHistory (state cats_and_dogs) = l1 ++ item :: l2 ∧
    id item = "1000" ∧
    searchHistory
      (state (dispatch (handleDeleteHistory fair_weather "1000")
                cats_and_dogs).1)
    = l1 ++ l2.
Proof.
  apply (handleDeleteHistory_present fair_weather cats_and_dogs "1000").
  - apply (bool_decide_unpack _). vm_compute. exact I.
  - apply (bool_decide_unpack _). vm_compute. exact I.
Defined.

(** C3, as stated, fails: after two searches at one clock instant both
    entries have the id "1000", and deleting "1000" takes out both. *)
Lemma handleDeleteHistory_removes_both :
  "1000" ∈ ids (searchHistory (state twice_at_once)) ∧
  length (searchHistory (state twice_at_once)) = 2%nat ∧
  length (searchHistory
            (state (dispatch (handleDeleteHistory same_instant "1000")
                      twice_at_once).1)) = 0%nat.
Proof.
  split; [|done]. apply (bool_decide_unpack _). vm_compute. exact I.
Qed.

(** C6: when no entry has the id [i], [handleDeleteHistory i] leaves the
    history as it is and still shows the informational toast. *)
Theorem handleDeleteHistory_absent env w i :
  i ∉ ids (searchHistory (state w)) →
  searchHistory (state (dispatch (handleDeleteHistory env i) w).1)
  = searchHistory (state w) ∧
  Shown info "Search history item deleted"
  ∈ drop (length (trace w))
      (trace (dispatch (handleDeleteHistory env i) w).1).
Proof.
  intros Hnotin. rewrite handleDeleteHistory_run. simpl.
  split; [by apply filter_other_ids|].
  rewrite drop_app_length. left.
Qed.

Lemma handleDeleteHistory_absent_witness :
  searchHistory
    (state (dispatch (handleDeleteHistory fair_weather "42")
              cats_and_dogs).1)
  = searchHistory (state cats_and_dogs) ∧
  Shown info "Search history item deleted"
  ∈ drop (length (trace cats_and_dogs))
      (trace (dispatch (handleDeleteHistory fair_weather "42")
                cats_and_dogs).1).
Proof.
  apply (handleDeleteHistory_absent fair_weather cats_and_dogs "42").
  apply (bool_decide_unpack _). vm_compute. exact I.
Defined.

(** C7: [handleDeleteAll] ends with the empty history whatever the history
    was, and a second [handleDeleteAll] changes nothing in the React
    state. *)
Theorem handleDeleteAll_idempotent env w :
  searchHistory (state (dispatch (handleDeleteAll env) w).1) = [] ∧
  state (dispatch (handleDeleteAll env)
           (dispatch (handleDeleteAll env) w).1).1
  = state (dispatch (handleDeleteAll env) w).1.
Proof. by rewrite !handleDeleteAll_run. Qed.

(** ** A failed write *)

(** C8: when the write of [AsyncStorage.setItem] fails, each of the three
    mutations (a search that launched, a deletion, a clearing) returns
    normally with the history in memory updated, the store untouched, the
    failure on [console.error], and no error toast.  The deletion and the
    clearing need nothing but the failed write. *)
Theorem write_failure_logged_only env w :
  setItem_resolves env (writes w) = false →
  (∀ text q,
     text ≠ "" →
     encodeURIComponent env text = Some q →
     openURL_resolves env (launches w) = true →
     absorbs_write_failure w (performSearch env text)
       (newHistoryItem_in env w text :: searchHistory (state w))) ∧
  (∀ i,
     absorbs_write_failure w (handleDeleteHistory env i)
       (filter (λ item, id item ≠ i) (searchHistory (state w)))) ∧
  absorbs_write_failure w (handleDeleteAll env) [].
Proof.
  intros Hwrite. unfold absorbs_write_failure.
  split; [|split]; [intros text q Htext Hq Hopen|intros i|]; eexists _, _.
  - rewrite (performSearch_resolved env w text q Htext Hq Hopen), Hwrite.
    simpl. repeat split. { set_solver. }
    intros text1. no_such_event.
  - rewrite handleDeleteHistory_run, Hwrite. simpl.
    repeat split. { set_solver. }
    intros text1. no_such_event.
  - rewrite handleDeleteAll_run, Hwrite. simpl.
    repeat split. { set_solver. }
    intros text1. no_such_event.
Qed.

(** The witness has the search on a platform whose launcher resolves, and
    the deletion and the clearing on one whose launcher always rejects. *)
Lemma write_failure_logged_only_witness :
  absorbs_write_failure cats_and_dogs (performSearch disk_full "birds")
    (newHistoryItem_in disk_full cats_and_dogs "birds"
       :: searchHistory (state cats_and_dogs)) ∧
  absorbs_write_failure cats_and_dogs
    (handleDeleteHistory (platform ticking (always false) (always false))
       "1000")
    (filter (λ item, id item ≠ "1000") (searchHistory (state cats_and_dogs))) ∧
  absorbs_write_failure cats_and_dogs
    (handleDeleteAll (platform ticking (always false) (always false))) [].
Proof.
  destruct (write_failure_logged_only disk_full cats_and_dogs)
    as (Hsearch & _ & _); [reflexivity|].
  destruct (write_failure_logged_only
              (platform ticking (always false) (always false)) cats_and_dogs)
    as (_ & Hdelete & Hclear); [reflexivity|].
  split; [|split].
  - apply (Hsearch "birds" "birds"); [done|reflexivity|reflexivity].
  - exact (Hdelete "1000").
  - exact Hclear.
Defined.

(** ** Ids *)

(** C9, as the code has it: the id of the entry that a successful
    [performSearch] creates is the decimal rendering of one clock reading,
    its timestamp is the next clock reading, and the id is the rendering of
    the timestamp exactly when the two readings are the same. *)
Theorem performSearch_id_of_clock env w text q :
  text ≠ "" →
  encodeURIComponent env text = Some q →
  openURL_resolves env (launches w) = true →
  ∃ item,
    searchHistory (state (dispatch (performSearch env text) w).1) !! 0%nat
    = Some item ∧
    id item = toString (clock env (readings w)) ∧
    timestamp item = clock env (S (readings w)) ∧
    (id item = toString (timestamp item)
     ↔ clock env (readings w) = clock env (S (readings w))).
Proof.
  intros Htext Hq Hopen.
  rewrite (performSearch_resolved env w text q Htext Hq Hopen). simpl.
  exists (newHistoryItem_in env w text). repeat split; simpl.
  - intros H. by apply (inj toString).
  - by intros ->.
Qed.

Lemma performSearch_id_of_clock_witness :
  ∃ item,
    searchHistory
      (state (dispatch (performSearch same_instant "cats") initialWorld).1)
    !! 0%nat = Some item ∧
    id item = toString (clock same_instant (readings initialWorld)) ∧
    timestamp item = clock same_instant (S (readings initialWorld)) ∧
    (id item = toString (timestamp item)
     ↔ clock same_instant (readings initialWorld)
       = clock same_instant (S (readings initialWorld))).
Proof.
  apply (performSearch_id_of_clock same_instant initialWorld "cats" "cats");
    [done|reflexivity|reflexivity].
Defined.

(** C9, as stated, fails: when the clock ticks between the two readings,
    the entry has the id "1000" and the timestamp 1001. *)
Lemma performSearch_id_not_timestamp :
  ∃ item,
    searchHistory
      (state (dispatch (performSearch fair_weather "cats") initialWorld).1)
    = [item] ∧
    id item = "1000" ∧
    timestamp item = 1001 ∧
    id item ≠ toString (timestamp item).
Proof.
  exists {| id := "1000"; query := "cats"; timestamp := 1001 |}.
  repeat split. vm_compute. discriminate.
Qed.

(** C1, as stated, fails: two searches at one clock instant leave two
    entries with the id "1000". *)
Lemma same_instant_same_id :
  ids (searchHistory (state twice_at_once)) = ["1000"; "1000"] ∧
  ¬ NoDup (ids (searchHistory (state twice_at_once))).
Proof.
  split; [done|]. apply (bool_decide_unpack _). vm_compute. exact I.
Qed.

Lemma performSearch_readings env w text :
  (readings w ≤ readings (dispatch (performSearch env text) w).1)%nat.
Proof.
  pose proof (performSearch_history env w text) as Hrun. simpl in Hrun.
  destruct (search_succeeds env w text); destruct Hrun as [_ ->]; lia.
Qed.

Lemma step_readings env w intent :
  (readings w ≤ readings (step env w intent))%nat.
Proof.
  destruct intent as [text| |query0|i|]; unfold step, handler_of.
  - done.
  - exact (performSearch_readings env w (searchQuery (state w))).
  - exact (performSearch_readings env w query0).
  - by rewrite handleDeleteHistory_run.
  - by rewrite handleDeleteAll_run.
Qed.

Lemma run_readings env intents : ∀ w,
  (readings w ≤ readings (run env w intents))%nat.
Proof.
  induction intents as [|intent intents IH]; intros w; [done|].
  simpl. etrans; [apply step_readings|apply IH].
Qed.

Lemma id_readings_distinct_le env n n' :
  (n ≤ n')%nat → id_readings_distinct env n' → id_readings_distinct env n.
Proof. intros Hle Hn' j k Hj Hk. apply Hn'; lia. Qed.

Lemma performSearch_ids_from_clock env w text :
  id_readings_distinct env (readings (dispatch (performSearch env text) w).1) →
  ids_from_clock env w →
  ids_from_clock env (dispatch (performSearch env text) w).1.
Proof.
  intros Hclock ([m Hm] & Hnodup & Hread). unfold ids_from_clock.
  pose proof (performSearch_history env w text) as Hrun. simpl in Hrun.
  revert Hclock.
  destruct (search_succeeds env w text); destruct Hrun as [-> ->];
    intros Hclock; [|by eauto].
  unfold ids. rewrite fmap_cons. simpl. split; [|split].
  - exists (S m). lia.
  - apply NoDup_cons. split; [|done].
    intros Hin. apply Hread in Hin as (j & Hj & Heq).
    apply (inj toString) in Heq. rewrite Hm in Heq.
    apply Hclock in Heq; lia.
  - intros i [->|Hin]%elem_of_cons.
    + exists m. split; [lia|by rewrite Hm].
    + apply Hread in Hin as (j & Hj & ->). exists j. split; [lia|done].
Qed.

Lemma handleDeleteHistory_ids_from_clock env w i :
  ids_from_clock env w →
  ids_from_clock env (dispatch (handleDeleteHistory env i) w).1.
Proof.
  intros (Heven & Hnodup & Hread). unfold ids_from_clock.
  rewrite handleDeleteHistory_run. simpl. split; [done|]. split.
  - apply (sublist_NoDup _ (ids (searchHistory (state w)))); [done|].
    apply fmap_sublist, sublist_filter.
  - intros j (item & -> & [_ Hitem]%list_elem_of_filter)%list_elem_of_fmap.
    apply Hread. by apply list_elem_of_fmap_2.
Qed.

Lemma handleDeleteAll_ids_from_clock env w :
  ids_from_clock env w →
  ids_from_clock env (dispatch (handleDeleteAll env) w).1.
Proof.
  intros (Heven & _ & _). unfold ids_from_clock.
  rewrite handleDeleteAll_run. simpl. split; [done|]. split.
  - apply NoDup_nil_2.
  - intros i Hin. by apply elem_of_nil in Hin.
Qed.

Lemma step_ids_from_clock env w intent :
  id_readings_distinct env (readings (step env w intent)) →
  ids_from_clock env w → ids_from_clock env (step env w intent).
Proof.
  intros Hclock Hw. destruct intent as [text| |query0|i|].
  - done.
  - by apply performSearch_ids_from_clock.
  - by apply performSearch_ids_from_clock.
  - by apply handleDeleteHistory_ids_from_clock.
  - by apply handleDeleteAll_ids_from_clock.
Qed.

Lemma run_ids_from_clock env intents : ∀ w,
  id_readings_distinct env (readings (run env w intents)) →
  ids_from_clock env w → ids_from_clock env (run env w intents).
Proof.
  induction intents as [|intent intents IH]; intros w Hclock Hw; [done|].
  simpl. apply IH; [done|]. apply step_ids_from_clock; [|done].
  apply (id_readings_distinct_le env _ _
           (run_readings env intents (step env w intent)) Hclock).
Qed.

Lemma initialWorld_ids_from_clock env : ids_from_clock env initialWorld.
Proof.
  split; [by exists 0%nat|]. split; [apply NoDup_nil_2|].
  intros i Hin. by apply elem_of_nil in Hin.
Qed.

(** C1, as the code has it: in every state that the handlers reach from the
    initial one, no two entries share an id, provided the clock readings
    taken for the ids on the way (the first of the two readings of each
    search that launched) are pairwise distinct.  Nothing is asked of the
    readings taken for the timestamps. *)
Theorem ids_unique_while_clock_distinct env intents :
  id_readings_distinct env (readings (run env initialWorld intents)) →
  NoDup (ids (searchHistory (state (run env initialWorld intents)))).
Proof.
  intros Hclock.
  apply (run_ids_from_clock env intents initialWorld Hclock).
  apply initialWorld_ids_from_clock.
Qed.

(** The witness runs on a clock that returns every instant twice: the id
    and the timestamp of an entry are read at the same instant. *)
Lemma ids_unique_while_clock_distinct_witness :
  NoDup (ids (searchHistory
                (state (run (platform (λ k, 1000 + Z.of_nat (k / 2))
                               (always true) (always true))
                          initialWorld
                          [ChangeText "cats"; Submit; SearchAgain "dogs";
                           Delete "1000"; SearchAgain "birds"])))).
Proof.
  apply (ids_unique_while_clock_distinct
           (platform (λ k, 1000 + Z.of_nat (k / 2))
              (always true) (always true))).
  intros j k _ _ H.
  change (1000 + Z.of_nat (2 * j / 2) = 1000 + Z.of_nat (2 * k / 2)) in H.
  rewrite !(Nat.mul_comm 2), !Nat.div_mul in H by lia. lia.
Defined.

(** ** Startup *)

Ltac run_load :=
  unfold restart, loadSearchHistory, AsyncStorage_getItem, settled,
    try_catch, bind, ret, setSearchHistory, with_state, console_error, emit;
  simpl.

(** X1: [loadSearchHistory] always returns normally, leaves the store, the
    pending text and the busy flag as they are, calls neither the launcher
    nor the clock nor [setItem], and emits nothing but, at most, one
    [console.error]: no toast is ever shown at startup. *)
Theorem loadSearchHistory_quiet st w :
  (loadSearchHistory st w).2 = Returned tt ∧
  storage (loadSearchHistory st w).1 = storage w ∧
  searchQuery (state (loadSearchHistory st w).1) = searchQuery (state w) ∧
  isSearching (state (loadSearchHistory st w).1) = isSearching (state w) ∧
  readings (loadSearchHistory st w).1 = readings w ∧
  launches (loadSearchHistory st w).1 = launches w ∧
  writes (loadSearchHistory st w).1 = writes w ∧
  (trace (loadSearchHistory st w).1 = trace w ∨
   trace (loadSearchHistory st w).1
   = trace w ++ [Logged "Error loading search history:"]).
Proof.
  run_load. destruct (getItem_resolves st); simpl; [|by auto 10].
  destruct (storage w !! "searchHistory") as [text|]; simpl; [|by auto 10].
  destruct (falsy text); simpl; [by auto 10|].
  destruct (JSON_parse st text); simpl; by auto 10.
Qed.

(** X2: when the store has nothing under 'searchHistory', or has the empty
    string there, [loadSearchHistory] changes nothing at all: [JSON.parse]
    is not tried and nothing is logged. *)
Theorem loadSearchHistory_nothing_stored st w :
  getItem_resolves st = true →
  storage w !! "searchHistory" = None ∨
  storage w !! "searchHistory" = Some "" →
  loadSearchHistory st w = (w, Returned tt).
Proof.
  intros Hget Hstored. run_load. rewrite Hget.
  by destruct Hstored as [-> | ->].
Qed.

Lemma loadSearchHistory_nothing_stored_witness :
  loadSearchHistory reader initialWorld = (initialWorld, Returned tt).
Proof.
  apply (loadSearchHistory_nothing_stored reader initialWorld);
    [reflexivity|left; reflexivity].
Defined.

(** X3: when [getItem] is rejected, or [JSON.parse] throws on the stored
    text, [loadSearchHistory] catches it: it returns normally, the React
    state and the store (the unreadable text with it) stay as they are, and
    the one thing emitted is the [console.error]. *)
Theorem loadSearchHistory_failure st w :
  getItem_resolves st = false ∨
  (∃ text e, storage w !! "searchHistory" = Some text ∧ text ≠ "" ∧
             JSON_parse st text = Thrown e) →
  (loadSearchHistory st w).2 = Returned tt ∧
  state (loadSearchHistory st w).1 = state w ∧
  storage (loadSearchHistory st w).1 = storage w ∧
  trace (loadSearchHistory st w).1
  = trace w ++ [Logged "Error loading search history:"].
Proof.
  intros [Hget|(text & e & Hstored & Htext & Hparse)]; run_load.
  - by rewrite Hget.
  - destruct (getItem_resolves st); [|done]. simpl.
    by rewrite Hstored, (falsy_nonempty _ Htext), Hparse.
Qed.

Lemma loadSearchHistory_failure_witness :
  (loadSearchHistory reader corrupted).2 = Returned tt ∧
  state (loadSearchHistory reader corrupted).1 = state corrupted ∧
  storage (loadSearchHistory reader corrupted).1 = storage corrupted ∧
  trace (loadSearchHistory reader corrupted).1
  = trace corrupted ++ [Logged "Error loading search history:"].
Proof.
  apply (loadSearchHistory_failure reader corrupted).
  right. exists "[{oops", Rejected. split; [reflexivity|]. split; [done|].
  vm_compute. reflexivity.
Defined.

(** What [restart] does when the stored text parses. *)
Lemma restart_parsed st w text h :
  getItem_resolves st = true →
  storage w !! "searchHistory" = Some text →
  text ≠ "" →
  JSON_parse st text = Returned h →
  searchHistory (state (restart st w)) = h.
Proof.
  intros Hget Hstored Htext Hparse. run_load.
  by rewrite Hget, Hstored, (falsy_nonempty _ Htext), Hparse.
Qed.

Lemma restart_nothing_stored st w :
  getItem_resolves st = true →
  storage w = ∅ →
  searchHistory (state (restart st w)) = [].
Proof.
  intros Hget Hstored. run_load. by rewrite Hget, Hstored, lookup_empty.
Qed.

(** [restart] looks at the store only. *)
Lemma restart_same_storage st w1 w2 :
  storage w1 = storage w2 →
  searchHistory (state (restart st w1)) = searchHistory (state (restart st w2)).
Proof.
  intros Hstorage. run_load. rewrite Hstorage.
  destruct (getItem_resolves st); simpl; [|done].
  destruct (storage w2 !! "searchHistory") as [text|]; simpl; [|done].
  destruct (falsy text); simpl; [done|].
  by destruct (JSON_parse st text).
Qed.

Lemma restart_in_sync env st w :
  in_sync env w →
  getItem_resolves st = true →
  JSON_stringify env (searchHistory (state w)) ≠ "" →
  JSON_parse st (JSON_stringify env (searchHistory (state w)))
  = Returned (searchHistory (state w)) →
  searchHistory (state (restart st w)) = searchHistory (state w).
Proof.
  intros [[Hempty ->]|Hstored] Hget Htext Hparse.
  - by apply restart_nothing_stored.
  - apply (restart_parsed st w
             (JSON_stringify env (searchHistory (state w))) _ Hget);
      [|done..].
    by rewrite Hstored, lookup_singleton_eq.
Qed.

(** ** The store follows the memory *)

Lemma insert_searchHistory env w (h : list SearchHistoryItem) :
  in_sync env w →
  <["searchHistory" := JSON_stringify env h]> (storage w)
  = {[ "searchHistory" := JSON_stringify env h ]}.
Proof.
  intros [[-> _]| ->]; [apply insert_empty|apply insert_singleton_eq].
Qed.

Lemma performSearch_storage env w text :
  storage (dispatch (performSearch env text) w).1 =
  if search_succeeds env w text && setItem_resolves env (writes w) then
    <["searchHistory" :=
        JSON_stringify env
          (newHistoryItem_in env w text :: searchHistory (state w))]>
      (storage w)
  else storage w.
Proof.
  unfold search_succeeds.
  destruct (decide (text = "")) as [->|Htext]; [done|].
  rewrite (falsy_nonempty _ Htext). simpl.
  destruct (encodeURIComponent env text) as [q|] eqn:Hq.
  - destruct (openURL_resolves env (launches w)) eqn:Hopen.
    + rewrite (performSearch_resolved env w text q); [|done..]. simpl.
      by destruct (setItem_resolves env (writes w)).
    + by rewrite (performSearch_rejected env w text q).
  - by rewrite (performSearch_URIError env w text).
Qed.

Lemma performSearch_in_sync env w text :
  setItem_resolves env (writes w) = true →
  in_sync env w → in_sync env (dispatch (performSearch env text) w).1.
Proof.
  intros Hwrite Hsync. unfold in_sync.
  rewrite performSearch_storage, Hwrite, andb_true_r.
  pose proof (performSearch_history env w text) as Hrun. simpl in Hrun.
  destruct (search_succeeds env w text); destruct Hrun as [-> _];
    [|done].
  right. by apply insert_searchHistory.
Qed.

Lemma step_in_sync env w intent :
  setItem_resolves env (writes w) = true →
  in_sync env w → in_sync env (step env w intent).
Proof.
  intros Hwrite Hsync. destruct intent as [text| |query0|i|].
  - done.
  - by apply performSearch_in_sync.
  - by apply performSearch_in_sync.
  - unfold step, handler_of, in_sync. rewrite handleDeleteHistory_run, Hwrite.
    simpl. right. by apply insert_searchHistory.
  - unfold step, handler_of, in_sync. rewrite handleDeleteAll_run, Hwrite.
    simpl. right. by apply insert_searchHistory.
Qed.

Lemma run_in_sync env intents : ∀ w,
  (∀ k, setItem_resolves env k = true) →
  in_sync env w → in_sync env (run env w intents).
Proof.
  induction intents as [|intent intents IH]; intros w Hwrite Hw; [done|].
  simpl. apply IH; [done|]. by apply step_in_sync.
Qed.

(** X4: as long as every write resolves, in every state that the handlers
    reach from the initial one the store is in step with the memory: it is
    empty while the history is still empty and nothing was written, and
    otherwise holds, under 'searchHistory' and nowhere else, the
    serialisation of the history in memory. *)
Theorem store_follows_memory env intents :
  (∀ k, setItem_resolves env k = true) →
  in_sync env (run env initialWorld intents).
Proof.
  intros Hwrite. apply run_in_sync; [done|]. by left.
Qed.

Lemma store_follows_memory_witness :
  in_sync fair_weather
    (run fair_weather initialWorld
       [ChangeText "cats"; Submit; SearchAgain "dogs"; Delete "1000"]).
Proof.
  apply (store_follows_memory fair_weather). intros k. reflexivity.
Defined.

(** X5: save and load are a round trip: from a world whose store is in
    step with its memory, and with a [JSON.parse] that reads back what
    [JSON.stringify] wrote of this history, a restart comes up with the same
    history. *)
Theorem restart_restores env st w :
  in_sync env w →
  getItem_resolves st = true →
  JSON_stringify env (searchHistory (state w)) ≠ "" →
  JSON_parse st (JSON_stringify env (searchHistory (state w)))
  = Returned (searchHistory (state w)) →
  searchHistory (state (restart st w)) = searchHistory (state w).
Proof. apply restart_in_sync. Qed.

Lemma restart_restores_witness :
  searchHistory (state (restart reader cats_and_dogs))
  = searchHistory (state cats_and_dogs).
Proof.
  apply (restart_restores fair_weather reader cats_and_dogs).
  - apply (run_in_sync fair_weather); [intros k; reflexivity|by left].
  - reflexivity.
  - vm_compute. discriminate.
  - vm_compute. reflexivity.
Defined.

(** X6: a write that fails leaves the store behind the memory.  Whatever
    the user does in a world whose store was in step, if the write of that
    action fails then a restart comes up with the history as it was before
    the action: a deleted entry is back, a new one is gone. *)
Theorem failed_write_undone_by_restart env st w intent :
  in_sync env w →
  setItem_resolves env (writes w) = false →
  getItem_resolves st = true →
  JSON_stringify env (searchHistory (state w)) ≠ "" →
  JSON_parse st (JSON_stringify env (searchHistory (state w)))
  = Returned (searchHistory (state w)) →
  searchHistory (state (restart st (step env w intent)))
  = searchHistory (state w).
Proof.
  intros Hsync Hwrite Hget Htext Hparse.
  rewrite <- (restart_in_sync env st w Hsync Hget Htext Hparse).
  apply restart_same_storage.
  destruct intent as [text| |query0|i|]; unfold step, handler_of.
  - done.
  - change (dispatch (handleSearch env) w)
      with (dispatch (performSearch env (searchQuery (state w))) w).
    by rewrite performSearch_storage, Hwrite, andb_false_r.
  - change (dispatch (handleSearchAgain env query0) w)
      with (dispatch (performSearch env query0) w).
    by rewrite performSearch_storage, Hwrite, andb_false_r.
  - by rewrite handleDeleteHistory_run, Hwrite.
  - by rewrite handleDeleteAll_run, Hwrite.
Qed.

Lemma failed_write_undone_by_restart_witness :
  searchHistory
    (state (restart reader (step disk_full cats_and_dogs (Delete "1000"))))
  = searchHistory (state cats_and_dogs).
Proof.
  apply (failed_write_undone_by_restart disk_full reader cats_and_dogs).
  - apply (run_in_sync fair_weather); [intros k; reflexivity|by left].
  - reflexivity.
  - reflexivity.
  - vm_compute. discriminate.
  - vm_compute. reflexivity.
Defined.

(** ** What holds in every state *)

Lemma step_isSearching env w intent :
  isSearching (state w) = false →
  isSearching (state (step env w intent)) = false.
Proof.
  intros Hw. destruct intent as [text| |query0|i|]; unfold step, handler_of.
  - done.
  - change (dispatch (handleSearch env) w)
      with (dispatch (performSearch env (searchQuery (state w))) w).
    destruct (decide (searchQuery (state w) = "")) as [->|Htext]; [done|].
    by apply performSearch_resets_isSearching.
  - change (dispatch (handleSearchAgain env query0) w)
      with (dispatch (performSearch env query0) w).
    destruct (decide (query0 = "")) as [->|Htext]; [done|].
    by apply performSearch_resets_isSearching.
  - by rewrite handleDeleteHistory_run.
  - by rewrite handleDeleteAll_run.
Qed.

(** X7: the busy flag never sticks: in every state that the handlers reach
    from the initial one, whatever the launcher and the store answered,
    [isSearching] is false once the handler has settled. *)
Theorem isSearching_false_when_settled env intents :
  isSearching (state (run env initialWorld intents)) = false.
Proof.
  assert (∀ w, isSearching (state w) = false →
               isSearching (state (run env w intents)) = false) as Hrun.
  { induction intents as [|intent intents IH]; intros w Hw; [done|].
    simpl. apply IH. by apply step_isSearching. }
  by apply Hrun.
Qed.

Lemma search_succeeds_nonempty env w text :
  search_succeeds env w text = true → text ≠ "".
Proof.
  unfold search_succeeds, falsy. intros Hok ->.
  by rewrite bool_decide_eq_true_2 in Hok.
Qed.

Lemma performSearch_queries env w text :
  Forall (λ item, query item ≠ "") (searchHistory (state w)) →
  Forall (λ item, query item ≠ "")
    (searchHistory (state (dispatch (performSearch env text) w).1)).
Proof.
  intros Hw. pose proof (performSearch_history env w text) as Hrun.
  simpl in Hrun.
  destruct (search_succeeds env w text) eqn:Hok; destruct Hrun as [-> _];
    [|done].
  apply Forall_cons. split; [|done].
  by apply (search_succeeds_nonempty env w).
Qed.

Lemma filter_Forall {A} (P Q : A → Prop) `{!∀ x, Decision (Q x)} l :
  Forall P l → Forall P (filter Q l).
Proof.
  rewrite !Forall_forall. intros Hl x [_ Hx]%list_elem_of_filter. by apply Hl.
Qed.

Lemma step_queries env w intent :
  Forall (λ item, query item ≠ "") (searchHistory (state w)) →
  Forall (λ item, query item ≠ "") (searchHistory (state (step env w intent))).
Proof.
  intros Hw. destruct intent as [text| |query0|i|]; unfold step, handler_of.
  - done.
  - exact (performSearch_queries env w (searchQuery (state w)) Hw).
  - exact (performSearch_queries env w query0 Hw).
  - rewrite handleDeleteHistory_run. simpl. by apply filter_Forall.
  - rewrite handleDeleteAll_run. simpl. apply Forall_nil_2.
Qed.

(** X8: no entry of the history has an empty query, in any state that the
    handlers reach from the initial one: only [performSearch] adds entries,
    and it turns the empty text away before anything else. *)
Theorem queries_never_empty env intents :
  Forall (λ item, query item ≠ "")
    (searchHistory (state (run env initialWorld intents))).
Proof.
  assert (∀ w, Forall (λ item, query item ≠ "") (searchHistory (state w)) →
               Forall (λ item, query item ≠ "")
                 (searchHistory (state (run env w intents)))) as Hrun.
  { induction intents as [|intent intents IH]; intros w Hw; [done|].
    simpl. apply IH. by apply step_queries. }
  apply Hrun. apply Forall_nil_2.
Qed.

Lemma filter_newest_first (Q : SearchHistoryItem → Prop)
    `{!∀ x, Decision (Q x)} h :
  newest_first h → newest_first (filter Q h).
Proof.
  unfold newest_first. induction h as [|item h IH]; [done|].
  rewrite StronglySorted_cons. intros [Hitem Hh]. rewrite filter_cons.
  destruct (decide (Q item)); [|by apply IH].
  apply StronglySorted_cons. split; [by apply filter_Forall|by apply IH].
Qed.

Lemma performSearch_newest_first env w text :
  (∀ j k, (j ≤ k)%nat → clock env j ≤ clock env k) →
  newest_first (searchHistory (state w)) ∧ timestamps_read env w →
  newest_first (searchHistory (state (dispatch (performSearch env text) w).1))
  ∧ timestamps_read env (dispatch (performSearch env text) w).1.
Proof.
  intros Hclock [Hsorted Hread]. unfold timestamps_read in *.
  pose proof (performSearch_history env w text) as Hrun. simpl in Hrun.
  destruct (search_succeeds env w text); destruct Hrun as [-> ->];
    [|done].
  split.
  - apply StronglySorted_cons. split; [|done].
    eapply Forall_impl; [exact Hread|]. simpl.
    intros item (k & Hk & ->). apply Hclock. lia.
  - apply Forall_cons. split.
    + exists (S (readings w)). split; [lia|done].
    + eapply Forall_impl; [exact Hread|]. simpl.
      intros item (k & Hk & ->). exists k. split; [lia|done].
Qed.

Lemma step_newest_first env w intent :
  (∀ j k, (j ≤ k)%nat → clock env j ≤ clock env k) →
  newest_first (searchHistory (state w)) ∧ timestamps_read env w →
  newest_first (searchHistory (state (step env w intent)))
  ∧ timestamps_read env (step env w intent).
Proof.
  intros Hclock Hw. destruct intent as [text| |query0|i|];
    unfold step, handler_of.
  - done.
  - exact (performSearch_newest_first env w (searchQuery (state w)) Hclock Hw).
  - exact (performSearch_newest_first env w query0 Hclock Hw).
  - destruct Hw as [Hsorted Hread]. unfold timestamps_read.
    rewrite handleDeleteHistory_run. simpl.
    split; [by apply filter_newest_first|by apply filter_Forall].
  - unfold timestamps_read. rewrite handleDeleteAll_run. simpl.
    split; [apply SSorted_nil|apply Forall_nil_2].
Qed.

(** X9: when the clock never goes backwards, the history is newest first in
    every state that the handlers reach from the initial one: no entry has a
    later timestamp than an entry before it. *)
Theorem history_newest_first env intents :
  (∀ j k, (j ≤ k)%nat → clock env j ≤ clock env k) →
  newest_first (searchHistory (state (run env initialWorld intents))).
Proof.
  intros Hclock.
  assert (∀ w, newest_first (searchHistory (state w)) ∧ timestamps_read env w →
               newest_first (searchHistory (state (run env w intents)))
               ∧ timestamps_read env (run env w intents)) as Hrun.
  { induction intents as [|intent intents IH]; intros w Hw; [done|].
    simpl. apply IH. by apply step_newest_first. }
  apply Hrun. split; [apply SSorted_nil|apply Forall_nil_2].
Qed.

Lemma history_newest_first_witness :
  newest_first
    (searchHistory
       (state (run fair_weather initialWorld
                 [SearchAgain "cats"; SearchAgain "dogs"; Delete "1000";
                  SearchAgain "birds"]))).
Proof.
  apply (history_newest_first fair_weather).
  intros j k Hjk. unfold fair_weather, platform, ticking. simpl. lia.
Defined.

(** ** More on deleting *)

Lemma count_occ_filter_other_id (h : list SearchHistoryItem) i item :
  id item ≠ i →
  count_occ SearchHistoryItem_eq_dec (filter (λ item, id item ≠ i) h) item
  = count_occ SearchHistoryItem_eq_dec h item.
Proof.
  intros Hitem. induction h as [|x h IH]; [done|].
  rewrite filter_cons. destruct (decide (id x ≠ i)) as [Hx|Hx]; simpl.
  - destruct (SearchHistoryItem_eq_dec x item); by rewrite IH.
  - destruct (SearchHistoryItem_eq_dec x item) as [->|_]; [done|exact IH].
Qed.

Lemma count_occ_sublist (l1 l2 : list SearchHistoryItem) item :
  l1 `sublist_of` l2 →
  (count_occ SearchHistoryItem_eq_dec l1 item
   ≤ count_occ SearchHistoryItem_eq_dec l2 item)%nat.
Proof.
  induction 1 as [|x l1 l2 _ IH|x l1 l2 _ IH]; simpl; [done|..];
    destruct (SearchHistoryItem_eq_dec x item); lia.
Qed.

Lemma filter_without_id i h :
  without_id i h (filter (λ item, id item ≠ i) h).
Proof.
  split; [apply sublist_filter|]. split.
  - intros (item & -> & [Hne _]%list_elem_of_filter)%list_elem_of_fmap.
    by apply Hne.
  - intros item. apply count_occ_filter_other_id.
Qed.

Lemma without_id_unique i h l :
  without_id i h l → l = filter (λ item, id item ≠ i) h.
Proof.
  intros (Hsub & Hnotin & Hcount). revert Hnotin Hcount.
  induction Hsub as [|x l1 l2 Hsub IH|x l1 l2 Hsub IH];
    intros Hnotin Hcount; [done|..].
  - unfold ids in Hnotin. rewrite fmap_cons, not_elem_of_cons in Hnotin.
    destruct Hnotin as [Hx Hnotin].
    rewrite filter_cons. destruct (decide (id x ≠ i)) as [_|Hne];
      [|by destruct Hne].
    f_equal. apply IH; [done|].
    intros item Hitem. specialize (Hcount item Hitem). simpl in Hcount.
    destruct (SearchHistoryItem_eq_dec x item); lia.
  - rewrite filter_cons. destruct (decide (id x ≠ i)) as [Hx|Hx].
    + specialize (Hcount x Hx). simpl in Hcount.
      destruct (SearchHistoryItem_eq_dec x x) as [_|Hne]; [|done].
      pose proof (count_occ_sublist l1 l2 x Hsub). lia.
    + apply IH; [done|].
      intros item Hitem. specialize (Hcount item Hitem). simpl in Hcount.
      destruct (SearchHistoryItem_eq_dec x item) as [->|_]; [done|exact Hcount].
Qed.

(** X10: whatever the ids are, [handleDeleteHistory i] leaves exactly the
    entries whose id is not [i]: the new history keeps the order of the old
    one, has no entry of id [i], and has every other entry as many times as
    the old one had it; and it is the only list of which all this holds. *)
Theorem handleDeleteHistory_removes_every_match env w i :
  without_id i (searchHistory (state w))
    (searchHistory (state (dispatch (handleDeleteHistory env i) w).1)) ∧
  ∀ h', without_id i (searchHistory (state w)) h' →
        h' = searchHistory (state (dispatch (handleDeleteHistory env i) w).1).
Proof.
  rewrite handleDeleteHistory_run. simpl.
  split; [apply filter_without_id|apply without_id_unique].
Qed.

(** X11: deletions commute, and deleting the same id a second time changes
    nothing more in the history. *)
Theorem handleDeleteHistory_commutes env w i j :
  searchHistory (state (run env w [Delete i; Delete j]))
  = searchHistory (state (run env w [Delete j; Delete i])) ∧
  searchHistory (state (run env w [Delete i; Delete i]))
  = searchHistory (state (run env w [Delete i])).
Proof.
  unfold run. simpl. unfold step, handler_of.
  rewrite !handleDeleteHistory_run. simpl.
  rewrite !list_filter_filter. split; apply list_filter_iff; tauto.
Qed.

(** X12: searching and then deleting the entry just made gives back the
    history from before the search, when no earlier entry had the new id. *)
Theorem search_then_delete env w text q :
  text ≠ "" →
  encodeURIComponent env text = Some q →
  openURL_resolves env (launches w) = true →
  toString (clock env (readings w)) ∉ ids (searchHistory (state w)) →
  searchHistory
    (state (run env w [SearchAgain text;
                       Delete (toString (clock env (readings w)))]))
  = searchHistory (state w).
Proof.
  intros Htext Hq Hopen Hfresh. unfold run. simpl. unfold step, handler_of.
  rewrite handleDeleteHistory_run. simpl.
  change (dispatch (handleSearchAgain env text) w)
    with (dispatch (performSearch env text) w).
  rewrite (performSearch_resolved env w text q Htext Hq Hopen). simpl.
  rewrite filter_cons. simpl.
  destruct (decide (toString (clock env (readings w))
                    ≠ toString (clock env (readings w)))) as [Hne|_];
    [done|].
  by apply filter_other_ids.
Qed.

Lemma search_then_delete_witness :
  searchHistory
    (state (run fair_weather cats_and_dogs
              [SearchAgain "birds";
               Delete (toString (clock fair_weather (readings cats_and_dogs)))]))
  = searchHistory (state cats_and_dogs).
Proof.
  apply (search_then_delete fair_weather cats_and_dogs "birds" "birds");
    [done|reflexivity|reflexivity|].
  apply (bool_decide_unpack _). vm_compute. exact I.
Defined.

(** X13: [handleDeleteHistory] and [handleDeleteAll] touch the history and
    the store only: the pending text and the busy flag stay as they are, the
    clock is not read, the launcher is not called and no URL is opened, and
    each tries exactly one write. *)
Theorem deleting_touches_history_only env w i :
  history_only w (dispatch (handleDeleteHistory env i) w).1 ∧
  history_only w (dispatch (handleDeleteAll env) w).1.
Proof.
  unfold history_only.
  rewrite handleDeleteHistory_run, handleDeleteAll_run. simpl.
  rewrite !drop_app_length.
  split; (repeat split; try done);
    intros url; destruct (setItem_resolves env (writes w)); no_such_event.
Qed.

(** ** More on searching *)

(** X14: when [encodeURIComponent] throws on the text, the launcher is never
    called: [performSearch] shows the failure toast, leaves the history, the
    store and the pending text as they are, reads no clock, writes nothing,
    and ends with [isSearching] false. *)
Theorem performSearch_encoding_throws env w text :
  text ≠ "" →
  encodeURIComponent env text = None →
  dispatch (performSearch env text) w =
  ({| state := {| searchQuery := searchQuery (state w);
                  searchHistory := searchHistory (state w);
                  isSearching := false |};
      storage := storage w;
      trace := trace w ++ [Dismissed; Shown error "Failed to open search"];
      readings := readings w; launches := launches w;
      writes := writes w |}, Returned tt).
Proof. apply performSearch_URIError. Qed.

Lemma performSearch_encoding_throws_witness :
  dispatch (performSearch well_formed_only lone_surrogate) cats_and_dogs =
  ({| state := {| searchQuery := searchQuery (state cats_and_dogs);
                  searchHistory := searchHistory (state cats_and_dogs);
                  isSearching := false |};
      storage := storage cats_and_dogs;
      trace := trace cats_and_dogs
               ++ [Dismissed; Shown error "Failed to open search"];
      readings := readings cats_and_dogs; launches := launches cats_and_dogs;
      writes := writes cats_and_dogs |}, Returned tt).
Proof.
  apply (performSearch_encoding_throws well_formed_only cats_and_dogs
           lone_surrogate); [done|reflexivity].
Defined.

(** X15: [performSearch] opens at most one URL, and none but the search URL
    of the text it was given: the fixed base followed by the encoded text. *)
Theorem performSearch_opens_search_url_only env w text url :
  Opened url
  ∈ drop (length (trace w)) (trace (dispatch (performSearch env text) w).1) →
  text ≠ "" ∧
  (∃ q, encodeURIComponent env text = Some q ∧
        url = "https://www.google.com/search?q=" +:+ q) ∧
  launches (dispatch (performSearch env text) w).1 = S (launches w).
Proof.
  destruct (decide (text = "")) as [->|Htext].
  { simpl. rewrite drop_app_length. no_such_event. }
  destruct (encodeURIComponent env text) as [q|] eqn:Hq.
  - assert (∀ evs, Opened url
              ∈ [Dismissed; Opened ("https://www.google.com/search?q=" +:+ q)]
                ++ evs →
              (∀ u, Opened u ∉ evs) →
              url = "https://www.google.com/search?q=" +:+ q) as Hurl.
    { intros evs Hin Hevs. simpl in Hin.
      apply elem_of_cons in Hin as [Hin|Hin]; [discriminate Hin|].
      apply elem_of_cons in Hin as [Hin|Hin]; [by injection Hin|].
      by apply Hevs in Hin. }
    destruct (openURL_resolves env (launches w)) eqn:Hopen.
    + rewrite (performSearch_resolved env w text q Htext Hq Hopen). simpl.
      rewrite drop_app_length. intros Hin. split; [done|]. split; [|done].
      exists q. split; [done|]. apply (Hurl _ Hin).
      intros u Hu. apply elem_of_app in Hu as [Hu|Hu].
      * destruct (setItem_resolves env (writes w)); revert Hu; no_such_event.
      * revert Hu. no_such_event.
    + rewrite (performSearch_rejected env w text q Htext Hq Hopen). simpl.
      rewrite drop_app_length. intros Hin. split; [done|]. split; [|done].
      exists q. split; [done|].
      apply (Hurl [Shown error "Failed to open search"] Hin).
      intros u. no_such_event.
  - rewrite (performSearch_URIError env w text Htext Hq). simpl.
    rewrite drop_app_length. no_such_event.
Qed.

Lemma performSearch_opens_search_url_only_witness :
  "cats & dogs" ≠ "" ∧
  (∃ q, encodeURIComponent fair_weather "cats & dogs" = Some q ∧
        "https://www.google.com/search?q=cats%20%26%20dogs"
        = "https://www.google.com/search?q=" +:+ q) ∧
  launches (dispatch (performSearch fair_weather "cats & dogs")
              cats_and_dogs).1
  = S (launches cats_and_dogs).
Proof.
  apply (performSearch_opens_search_url_only fair_weather cats_and_dogs
           "cats & dogs" "https://www.google.com/search?q=cats%20%26%20dogs").
  apply (bool_decide_unpack _). vm_compute. exact I.
Defined.

(** X16: the search button submits the text of the field, and a search that
    succeeded has emptied the field: pressing the button a second time,
    with nothing typed in between, only shows the validation toast; the
    history stays and the launcher is not called again. *)
Theorem handleSearch_twice env w text q :
  text ≠ "" →
  encodeURIComponent env text = Some q →
  openURL_resolves env (launches w) = true →
  searchHistory (state (run env w [ChangeText text; Submit]))
  = newHistoryItem_in env w text :: searchHistory (state w) ∧
  searchQuery (state (run env w [ChangeText text; Submit])) = "" ∧
  searchHistory (state (run env w [ChangeText text; Submit; Submit]))
  = searchHistory (state (run env w [ChangeText text; Submit])) ∧
  launches (run env w [ChangeText text; Submit; Submit])
  = launches (run env w [ChangeText text; Submit]) ∧
  trace (run env w [ChangeText text; Submit; Submit])
  = trace (run env w [ChangeText text; Submit])
    ++ [Shown error "Please enter a search query"].
Proof.
  intros Htext Hq Hopen.
  change (run env w [ChangeText text; Submit; Submit])
    with (step env (run env w [ChangeText text; Submit]) Submit).
  change (run env w [ChangeText text; Submit])
    with ((dispatch (performSearch env text) (step env w (ChangeText text))).1).
  rewrite (performSearch_resolved env (step env w (ChangeText text)) text q
             Htext Hq Hopen).
  done.
Qed.

Lemma handleSearch_twice_witness :
  searchHistory (state (run fair_weather cats_and_dogs
                          [ChangeText "birds"; Submit]))
  = newHistoryItem_in fair_weather cats_and_dogs "birds"
    :: searchHistory (state cats_and_dogs) ∧
  searchQuery (state (run fair_weather cats_and_dogs
                        [ChangeText "birds"; Submit])) = "" ∧
  searchHistory (state (run fair_weather cats_and_dogs
                          [ChangeText "birds"; Submit; Submit]))
  = searchHistory (state (run fair_weather cats_and_dogs
                            [ChangeText "birds"; Submit])) ∧
  launches (run fair_weather cats_and_dogs [ChangeText "birds"; Submit; Submit])
  = launches (run fair_weather cats_and_dogs [ChangeText "birds"; Submit]) ∧
  trace (run fair_weather cats_and_dogs [ChangeText "birds"; Submit; Submit])
  = trace (run fair_weather cats_and_dogs [ChangeText "birds"; Submit])
    ++ [Shown error "Please enter a search query"].
Proof.
  apply (handleSearch_twice fair_weather cats_and_dogs "birds" "birds");
    [done|reflexivity|reflexivity].
Defined.

(** X17: a handler builds the new history from the history of the render
    its closure belongs to, not from the state as it stands.  Run with the
    closure of an earlier render, [performSearch] and [handleDeleteHistory]
    drop whatever was added to the history since that render. *)
Theorem handlers_write_from_their_closure env w render text q i :
  text ≠ "" →
  encodeURIComponent env text = Some q →
  openURL_resolves env (launches w) = true →
  searchHistory (state (performSearch env text render w).1)
  = newHistoryItem_in env w text :: searchHistory render ∧
  searchHistory (state (handleDeleteHistory env i render w).1)
  = filter (λ item, id item ≠ i) (searchHistory render).
Proof.
  intros Htext Hq Hopen. split.
  - run_handler. rewrite (falsy_nonempty _ Htext), Hq. simpl. rewrite Hopen.
    by destruct (setItem_resolves env (writes w)).
  - run_handler. by destruct (setItem_resolves env (writes w)).
Qed.

Lemma handlers_write_from_their_closure_witness :
  searchHistory
    (state (performSearch fair_weather "birds" initialRender cats_and_dogs).1)
  = newHistoryItem_in fair_weather cats_and_dogs "birds"
    :: searchHistory initialRender ∧
  searchHistory
    (state (handleDeleteHistory fair_weather "1000" initialRender
              cats_and_dogs).1)
  = filter (λ item, id item ≠ "1000") (searchHistory initialRender).
Proof.
  apply (handlers_write_from_their_closure fair_weather cats_and_dogs
           initialRender "birds" "birds" "1000");
    [done|reflexivity|reflexivity].
Defined.
